(** * elf-magick, [elk/samples/entry_point.c]

    The sample makes the page holding a string of machine code executable
    with [mprotect] and jumps into it.  This file embeds [main] as a
    function over an explicit world (the trace of external calls and
    [errno]) and an environment that answers for the operating system, and
    proves the properties of the three steps the program performs: resolve
    the page, change its protection, transfer control. *)

From Stdlib Require Import ZArith List String Ascii Bool Lia.
Import ListNotations.

Local Open Scope Z_scope.
Local Open Scope string_scope.
Local Open Scope list_scope.

(** ** The platform

    [<stdint.h>] and [<sys/mman.h>] are not part of the repository: the
    width of [size_t] and the values of the [PROT_*] flags are taken as
    parameters. *)

Record platform : Type := {
  size_t_bits : Z;
  PROT_READ : Z;
  PROT_WRITE : Z;
  PROT_EXEC : Z
}.

(** The values on Linux/x86-64, the platform the bytes of [instr] are
    written for. *)
Definition linux_x86_64 : platform :=
  {| size_t_bits := 64; PROT_READ := 1; PROT_WRITE := 2; PROT_EXEC := 4 |}.

(** The flags are three different single bits, and [size_t] can hold the
    offset bits of a page. *)
Record platform_ok (pf : platform) : Prop := {
  bits_ok : 12 <= size_t_bits pf;
  read_bit : exists i, 0 <= i /\ PROT_READ pf = 2 ^ i;
  write_bit : exists j, 0 <= j /\ PROT_WRITE pf = 2 ^ j;
  exec_bit : exists k, 0 <= k /\ PROT_EXEC pf = 2 ^ k;
  write_not_read : PROT_WRITE pf <> PROT_READ pf;
  write_not_exec : PROT_WRITE pf <> PROT_EXEC pf
}.

(** Conversion of an integer to [size_t]: reduction modulo [2 ^ size_t_bits]. *)
Definition to_size_t (pf : platform) (z : Z) : Z := z mod 2 ^ size_t_bits pf.

(** An address is a value of the pointer type. *)
Definition is_address (pf : platform) (a : Z) : Prop :=
  0 <= a < 2 ^ size_t_bits pf.

(** ** The blob

    [const char *instr = "\x48\x31\xff\xb8\x3c\x00\x00\x00\x0f\x05";] *)

Definition instr_bytes : list Z :=
  [0x48; 0x31; 0xff; 0xb8; 0x3c; 0x00; 0x00; 0x00; 0x0f; 0x05].

Record CodeBlob : Type := { start : Z; size : Z }.

(** ** Region resolver

    [size_t region = (size_t) instr; region = region & (~0xfff);] and the
    length [0x1000] passed to [mprotect].  [0xfff] is an [int], so [~0xfff]
    is the [int] -4096, converted to [size_t] for the [&]. *)

Record MemoryRegion : Type := { base : Z; len : Z }.

Definition page_mask (pf : platform) : Z := to_size_t pf (Z.lnot 0xfff).

Definition resolver (pf : platform) (instr : Z) : MemoryRegion :=
  let region := to_size_t pf instr in
  let region := Z.land region (page_mask pf) in
  {| base := region; len := 0x1000 |}.

(** The region holds every byte of the blob. *)
Definition covers (r : MemoryRegion) (b : CodeBlob) : Prop :=
  base r <= start b /\ start b + size b <= base r + len r.

(** The page number of an address, for pages of [P] bytes. *)
Definition page_of (P a : Z) : Z := a / P.

Definition is_pow2 (P : Z) : Prop := exists k, 0 <= k /\ P = 2 ^ k.

(** ** External calls and the world

    What the program does to its environment is the sequence of calls it
    makes: calls of C library functions, by name and arguments, and the
    indirect call through the function pointer [f]. *)

Inductive value : Type :=
  | VStr (s : string)
  | VPtr (a : Z)
  | VInt (n : Z).

Inductive event : Type :=
  | Libc (fn : string) (args : list value)
  | Call (target : Z) (args : list value).

Record world : Type := { trace : list event; errno : Z }.

(** The environment of one run: where the objects of the program live, what
    the kernel answers to [mprotect] (the returned [int] and the value of
    [errno] after the call), and whether control comes back from the blob. *)
Record env : Type := {
  instr : Z;
  addr_main : Z;
  addr_region : Z;
  errno0 : Z;
  os_mprotect : Z -> Z -> Z -> Z * Z;
  blob_returns : bool
}.

(** ** A monad for [main]: state, [return] and calls that do not come back *)

Inductive flow (A : Type) : Type :=
  | Next (a : A)
  | Return (status : Z)
  | NoReturn.
Arguments Next {A} a.
Arguments Return {A} status.
Arguments NoReturn {A}.

Definition M (A : Type) : Type := world -> flow A * world.

Definition pure {A : Type} (a : A) : M A := fun w => (Next a, w).

Definition bind {A B : Type} (m : M A) (k : A -> M B) : M B :=
  fun w =>
    match m w with
    | (Next a, w') => k a w'
    | (Return s, w') => (Return s, w')
    | (NoReturn, w') => (NoReturn, w')
    end.

Declare Scope prog_scope.
Delimit Scope prog_scope with prog.
Notation "x <- m ;; k" := (bind m (fun x => k))
  (at level 100, m at next level, right associativity) : prog_scope.
Notation "m ;; k" := (bind m (fun _ => k))
  (at level 100, right associativity) : prog_scope.

Definition emit (ev : event) : M unit :=
  fun w => (Next tt, {| trace := trace w ++ [ev]; errno := errno w |}).

Definition return_ {A : Type} (status : Z) : M A := fun w => (Return status, w).

Definition get_errno : M Z := fun w => (Next (errno w), w).

Definition printf (fmt : string) (args : list value) : M unit :=
  emit (Libc "printf" (VStr fmt :: args)).

Definition mprotect_event (addr length prot : Z) : event :=
  Libc "mprotect" [VPtr addr; VInt length; VInt prot].

Definition mprotect (e : env) (addr length prot : Z) : M Z :=
  fun w =>
    let (ret, en) := os_mprotect e addr length prot in
    (Next ret,
     {| trace := trace w ++ [mprotect_event addr length prot]; errno := en |}).

(** A call through a [void ( * )(void)] pointer: no argument is passed and no
    value is read back. *)
Definition call_void (e : env) (f : Z) : M unit :=
  fun w =>
    (if blob_returns e then Next tt else NoReturn,
     {| trace := trace w ++ [Call f []]; errno := errno w |}).

Definition LF : string := String (ascii_of_nat 10) EmptyString.

(** ** [main] *)

Definition main (pf : platform) (e : env) : M unit :=
  (printf ("        main @ %p" ++ LF) [VPtr (addr_main e)] ;;
   printf ("instructions @ %p" ++ LF) [VPtr (instr e)] ;;
   let region := to_size_t pf (instr e) in
   let region := Z.land region (page_mask pf) in
   printf ("        page @ %p" ++ LF) [VPtr (addr_region e)] ;;
   printf ("making it executable..." ++ LF) [] ;;
   ret <- mprotect e region 0x1000 (Z.lor (PROT_READ pf) (PROT_EXEC pf)) ;;
   if negb (ret =? 0)%Z then
     (en <- get_errno ;;
      printf ("failed, error: %d" ++ LF) [VInt en] ;;
      return_ 1)
   else
     let f := instr e in
     printf ("doing the jump thing" ++ LF) [] ;;
     call_void e f)%prog.

(** One run of the program: the calls it made, and the status [main]
    returned, if it returned ([main] that reaches its closing brace returns
    0). *)
Definition run_main (pf : platform) (e : env) : list event * option Z :=
  match main pf e {| trace := []; errno := errno0 e |} with
  | (Next _, w) => (trace w, Some 0)
  | (Return s, w) => (trace w, Some s)
  | (NoReturn, w) => (trace w, None)
  end.

Definition events (pf : platform) (e : env) : list event := fst (run_main pf e).
Definition exit_status (pf : platform) (e : env) : option Z := snd (run_main pf e).

(** The [mprotect] request on the region the resolver computes for [instr]. *)
Definition protect_request (pf : platform) (e : env) : event :=
  let r := resolver pf (instr e) in
  mprotect_event (base r) (len r) (Z.lor (PROT_READ pf) (PROT_EXEC pf)).

(** What the kernel answers to that request: the value returned, named [ret]
    in [main], and [errno] after the call. *)
Definition protect_answer (pf : platform) (e : env) : Z * Z :=
  let r := resolver pf (instr e) in
  os_mprotect e (base r) (len r) (Z.lor (PROT_READ pf) (PROT_EXEC pf)).

Definition ret (pf : platform) (e : env) : Z := fst (protect_answer pf e).

(** ** Observations on a trace *)

Definition is_call (ev : event) : bool :=
  match ev with Call _ _ => true | Libc _ _ => false end.

Definition is_libc (fn : string) (ev : event) : bool :=
  match ev with Libc g _ => (g =? fn)%string | Call _ _ => false end.

(** The events after the first [mprotect] and before the first indirect call. *)
Fixpoint after_mprotect (t : list event) : list event :=
  match t with
  | [] => []
  | ev :: t' => if is_libc "mprotect" ev then t' else after_mprotect t'
  end.

Fixpoint before_call (t : list event) : list event :=
  match t with
  | [] => []
  | ev :: t' => if is_call ev then [] else ev :: before_call t'
  end.

(** Library functions that create, destroy or copy storage. *)
Definition storage_functions : list string :=
  ["malloc"; "calloc"; "realloc"; "free"; "aligned_alloc"; "posix_memalign";
   "mmap"; "munmap"; "mremap"; "brk"; "sbrk";
   "memcpy"; "memmove"; "strcpy"; "strncpy"; "strdup"].

Definition manages_storage (ev : event) : bool :=
  match ev with
  | Libc fn _ => existsb (fun g => (g =? fn)%string) storage_functions
  | Call _ _ => false
  end.

(** The access rights a [prot] argument asks for. *)
Inductive ProtectionState : Type := Writable | ExecutableReadable | ExecutableOnly.

Definition has_flag (prot flag : Z) : bool := (Z.land prot flag =? flag)%Z.

Definition protection_state (pf : platform) (prot : Z) : option ProtectionState :=
  match has_flag prot (PROT_READ pf), has_flag prot (PROT_WRITE pf),
        has_flag prot (PROT_EXEC pf) with
  | true, false, true => Some ExecutableReadable
  | false, false, true => Some ExecutableOnly
  | _, true, false => Some Writable
  | _, _, _ => None
  end.

Definition prot_args (t : list event) : list Z :=
  flat_map (fun ev =>
    match ev with
    | Libc "mprotect" [_; _; VInt p] => [p]
    | _ => []
    end) t.

(** ** The shape of a run, for the statements below *)

(** The four diagnostic lines printed before the permission change. *)
Definition prologue (pf : platform) (e : env) : list event :=
  [Libc "printf" [VStr ("        main @ %p" ++ LF); VPtr (addr_main e)];
   Libc "printf" [VStr ("instructions @ %p" ++ LF); VPtr (instr e)];
   Libc "printf" [VStr ("        page @ %p" ++ LF); VPtr (addr_region e)];
   Libc "printf" [VStr ("making it executable..." ++ LF)]].

Definition failure_report (cause : Z) : event :=
  Libc "printf" [VStr ("failed, error: %d" ++ LF); VInt cause].

Definition jump_notice : event :=
  Libc "printf" [VStr ("doing the jump thing" ++ LF)].

(** The properties the specification asks of [Resolver(A, P)]. *)
Definition resolver_spec (pf : platform) (A P : Z) : Prop :=
  let r := resolver pf A in
  base r = P * (A / P) /\ base r mod P = 0 /\
  base r <= A < base r + len r /\ len r = P.

(** The bytes of the blob lie on more than one page. *)
Definition straddles (P : Z) (b : CodeBlob) : Prop :=
  page_of P (start b + size b - 1) <> page_of P (start b).

(** A run that stops before the operating system is asked anything: no
    permission change is requested and no call into the blob is made. *)
Definition rejected_before_os_call (t : list event) : Prop :=
  filter (is_libc "mprotect") t = [] /\ filter is_call t = [].

(** The blob of the program at the address [a]: the ten bytes of the string
    [instr] points to. *)
Definition own_blob (a : Z) : CodeBlob :=
  {| start := a; size := Z.of_nat (List.length instr_bytes) |}.

(** An environment whose kernel grants exactly one request and refuses every
    other with [EINVAL], started with a stale [errno]. *)
Definition picky_os (a addr length prot : Z) : env :=
  {| instr := a; addr_main := 0x401136; addr_region := 0x7ffc00001000;
     errno0 := 99;
     os_mprotect := fun x y z =>
       if ((x =? addr) && (y =? length) && (z =? prot))%Z then (0, 0)
       else (-1, 22);
     blob_returns := false |}.

(** Sample environments. *)
Definition refusing_os (a : Z) : env :=
  {| instr := a; addr_main := 0x401136; addr_region := 0x7ffc00001000;
     errno0 := 0; os_mprotect := fun _ _ _ => (-1, 12); blob_returns := false |}.

Definition granting_os (a : Z) (back : bool) : env :=
  {| instr := a; addr_main := 0x401136; addr_region := 0x7ffc00001000;
     errno0 := 0; os_mprotect := fun _ _ _ => (0, 0); blob_returns := back |}.

(** ** Arithmetic of the mask *)

Lemma page_mask_land (pf : platform) (a : Z) :
  12 <= size_t_bits pf -> is_address pf a ->
  Z.land (to_size_t pf a) (page_mask pf) = 4096 * (a / 4096).
Proof.
  intros Hw [Ha0 Ha1]. unfold page_mask, to_size_t.
  rewrite (Z.mod_small a) by lia.
  rewrite <- (Z.land_ones (Z.lnot 4095)) by lia.
  change 4095 with (Z.ones 12).
  rewrite (Z.land_comm (Z.lnot _)), Z.land_assoc.
  rewrite (Z.land_ones a) by lia.
  rewrite (Z.mod_small a) by lia.
  rewrite <- Z.ldiff_land.
  rewrite Z.ldiff_ones_r by lia.
  rewrite Z.shiftr_div_pow2, Z.shiftl_mul_pow2 by lia.
  change (2 ^ 12) with 4096. lia.
Qed.

Lemma resolver_base (pf : platform) (a : Z) :
  12 <= size_t_bits pf -> is_address pf a ->
  base (resolver pf a) = 4096 * (a / 4096).
Proof. intros. unfold resolver. simpl. now apply page_mask_land. Qed.

Lemma resolver_len (pf : platform) (a : Z) : len (resolver pf a) = 4096.
Proof. reflexivity. Qed.

(** ** The run of [main] in closed form *)

Lemma run_main_eq (pf : platform) (e : env) :
  run_main pf e =
  if (ret pf e =? 0)%Z then
    (prologue pf e ++ [protect_request pf e; jump_notice; Call (instr e) []],
     if blob_returns e then Some 0 else None)
  else
    (prologue pf e ++
       [protect_request pf e; failure_report (snd (protect_answer pf e))],
     Some 1).
Proof.
  unfold ret, protect_request, protect_answer, run_main, main, resolver.
  cbn [base len].
  unfold bind, printf, emit, mprotect, get_errno, return_, call_void.
  cbn [trace errno app].
  destruct (os_mprotect e _ _ _) as [r en]. cbn [fst snd trace errno].
  destruct (r =? 0)%Z; cbn [negb trace errno app];
    [destruct (blob_returns e) |]; reflexivity.
Qed.

Lemma events_eq (pf : platform) (e : env) :
  events pf e =
  prologue pf e ++ protect_request pf e ::
    (if (ret pf e =? 0)%Z then [jump_notice; Call (instr e) []]
     else [failure_report (snd (protect_answer pf e))]).
Proof.
  unfold events. rewrite run_main_eq.
  destruct (ret pf e =? 0)%Z; reflexivity.
Qed.

Lemma exit_status_eq (pf : platform) (e : env) :
  exit_status pf e =
  if (ret pf e =? 0)%Z then (if blob_returns e then Some 0 else None)
  else Some 1.
Proof.
  unfold exit_status. rewrite run_main_eq.
  destruct (ret pf e =? 0)%Z; reflexivity.
Qed.

(** ** Concrete runs *)

Example page_mask_linux : page_mask linux_x86_64 = 0xfffffffffffff000.
Proof. reflexivity. Qed.

Example resolver_unaligned :
  resolver linux_x86_64 0x402010 = {| base := 0x402000; len := 0x1000 |}.
Proof. reflexivity. Qed.

Example resolver_aligned :
  resolver linux_x86_64 0x403000 = {| base := 0x403000; len := 0x1000 |}.
Proof. reflexivity. Qed.

Example run_granted :
  run_main linux_x86_64 (granting_os 0x402010 false) =
  ([Libc "printf" [VStr ("        main @ %p" ++ LF); VPtr 0x401136];
    Libc "printf" [VStr ("instructions @ %p" ++ LF); VPtr 0x402010];
    Libc "printf" [VStr ("        page @ %p" ++ LF); VPtr 0x7ffc00001000];
    Libc "printf" [VStr ("making it executable..." ++ LF)];
    Libc "mprotect" [VPtr 0x402000; VInt 0x1000; VInt 5];
    Libc "printf" [VStr ("doing the jump thing" ++ LF)];
    Call 0x402010 []],
   None).
Proof. reflexivity. Qed.

Example run_granted_and_back :
  exit_status linux_x86_64 (granting_os 0x402010 true) = Some 0.
Proof. reflexivity. Qed.

Example run_refused :
  run_main linux_x86_64 (refusing_os 0x402010) =
  ([Libc "printf" [VStr ("        main @ %p" ++ LF); VPtr 0x401136];
    Libc "printf" [VStr ("instructions @ %p" ++ LF); VPtr 0x402010];
    Libc "printf" [VStr ("        page @ %p" ++ LF); VPtr 0x7ffc00001000];
    Libc "printf" [VStr ("making it executable..." ++ LF)];
    Libc "mprotect" [VPtr 0x402000; VInt 0x1000; VInt 5];
    Libc "printf" [VStr ("failed, error: %d" ++ LF); VInt 12]],
   Some 1).
Proof. reflexivity. Qed.

(** ** Region resolver *)

(** C1, as stated, fails: the page size is the constant [0x1000], so for
    pages of 8192 bytes the base computed for address 4096 is not a multiple
    of the page size (and the length is not one page). *)
Lemma C1_counterexample :
  is_pow2 8192 /\ is_address linux_x86_64 4096 /\
  ~ resolver_spec linux_x86_64 4096 8192.
Proof.
  split; [exists 13; split; [lia | reflexivity] |].
  split; [unfold is_address; simpl; lia |].
  unfold resolver_spec. intros (_ & Hmod & _). vm_compute in Hmod. discriminate.
Qed.

(** C1, amended: for every address A and the page size P = 4096 the code is
    written for, the region's base is A rounded down to a multiple of P, it
    is a multiple of P, the region holds A, and its length is one page. *)
Theorem C1_resolver_one_page (pf : platform) (A P : Z) :
  12 <= size_t_bits pf -> is_address pf A -> P = 4096 ->
  resolver_spec pf A P.
Proof.
  intros Hw HA ->. unfold resolver_spec.
  rewrite resolver_base, resolver_len by assumption.
  pose proof (Z.mod_pos_bound A 4096 ltac:(lia)) as Hm.
  pose proof (Z.div_mod A 4096 ltac:(lia)) as Hd.
  repeat split; try lia.
  rewrite Z.mul_comm. apply Z.mod_mul. lia.
Qed.

Lemma C1_resolver_one_page_witness :
  resolver_spec linux_x86_64 0x402010 4096.
Proof.
  apply (C1_resolver_one_page linux_x86_64 0x402010 4096).
  - simpl. lia.
  - unfold is_address. simpl. lia.
  - reflexivity.
Defined.

(** C2, as stated, fails: the ten bytes of [instr] placed six bytes before a
    page boundary lie on two pages, and the region is the first page only:
    its length is less than two pages and it does not hold the blob. *)
Lemma C2_counterexample :
  let b := {| start := 0x402ffa; size := Z.of_nat (List.length instr_bytes) |} in
  let r := resolver linux_x86_64 (start b) in
  is_address linux_x86_64 (start b) /\
  straddles 4096 b /\
  page_of 4096 (start b + size b - 1) = page_of 4096 (start b) + 1 /\
  ~ covers r b /\ ~ 2 * 4096 <= len r.
Proof.
  cbv zeta. split; [| split; [| split; [| split]]].
  - unfold is_address. simpl. lia.
  - unfold straddles, page_of. vm_compute. discriminate.
  - vm_compute. reflexivity.
  - unfold covers. vm_compute. intros [_ H]. apply H. reflexivity.
  - vm_compute. intros H. apply H. reflexivity.
Qed.

(** C2, amended: for every blob the region is the one page that holds the
    blob's first byte; it holds the whole blob exactly when the blob's last
    byte is on the page of its first byte. *)
Theorem C2_resolver_first_page_only (pf : platform) (b : CodeBlob) :
  12 <= size_t_bits pf -> is_address pf (start b) -> 0 < size b ->
  let r := resolver pf (start b) in
  len r = 4096 /\ base r <= start b < base r + len r /\
  (covers r b <-> ~ straddles 4096 b).
Proof.
  intros Hw HA Hs r. subst r. unfold covers, straddles, page_of.
  rewrite resolver_base, resolver_len by assumption.
  destruct b as [a n]. cbn [start size] in *.
  pose proof (Z.mod_pos_bound a 4096 ltac:(lia)) as Hm.
  pose proof (Z.div_mod a 4096 ltac:(lia)) as Hd.
  pose proof (Z.mod_pos_bound (a + n - 1) 4096 ltac:(lia)) as Hm'.
  pose proof (Z.div_mod (a + n - 1) 4096 ltac:(lia)) as Hd'.
  repeat split; lia.
Qed.

Lemma C2_resolver_first_page_only_witness :
  let b := {| start := 0x402010; size := 10 |} in
  let r := resolver linux_x86_64 (start b) in
  len r = 4096 /\ base r <= start b < base r + len r /\
  (covers r b <-> ~ straddles 4096 b).
Proof.
  apply (C2_resolver_first_page_only linux_x86_64 {| start := 0x402010; size := 10 |}).
  - simpl. lia.
  - unfold is_address. simpl. lia.
  - simpl. lia.
Defined.

(** ** Permission transition and invoker *)

(** C3: when [mprotect] returns a non-zero value, the program prints the
    value the kernel left in [errno], returns 1, and makes no call into the
    blob. *)
Theorem C3_failed_transition_reports_and_stops (pf : platform) (e : env) :
  ret pf e <> 0 ->
  events pf e =
    prologue pf e ++
      [protect_request pf e; failure_report (snd (protect_answer pf e))] /\
  exit_status pf e = Some 1 /\
  filter is_call (events pf e) = [].
Proof.
  intros Hret. rewrite events_eq, exit_status_eq.
  destruct (Z.eqb_spec (ret pf e) 0) as [E | _]; [contradiction |].
  repeat split.
Qed.

Lemma C3_failed_transition_reports_and_stops_witness :
  let e := refusing_os 0x402010 in
  events linux_x86_64 e =
    prologue linux_x86_64 e ++
      [mprotect_event 0x402000 0x1000 5; failure_report 12] /\
  exit_status linux_x86_64 e = Some 1 /\
  filter is_call (events linux_x86_64 e) = [].
Proof.
  apply (C3_failed_transition_reports_and_stops linux_x86_64 (refusing_os 0x402010)).
  vm_compute. discriminate.
Defined.

(** C4, as stated, fails: for the null blob address the program computes the
    region at 0 and asks the kernel to change its protection; the only
    error it reports is the kernel's. *)
Lemma C4_counterexample :
  instr (refusing_os 0) = 0 /\
  events linux_x86_64 (refusing_os 0) =
    prologue linux_x86_64 (refusing_os 0) ++
      [mprotect_event 0 0x1000 5; failure_report 12] /\
  ~ rejected_before_os_call (events linux_x86_64 (refusing_os 0)).
Proof.
  split; [reflexivity |]. split; [reflexivity |].
  intros [H _]. vm_compute in H. discriminate.
Qed.

(** C4, amended: no input is rejected.  For every blob address, 0 included,
    the first five calls of a run are the four diagnostic lines and the
    [mprotect] request on the computed region, and the program returns 1
    only when the kernel refuses that request. *)
Theorem C4_no_input_rejected (pf : platform) (e : env) :
  firstn 5 (events pf e) = prologue pf e ++ [protect_request pf e] /\
  ~ rejected_before_os_call (events pf e) /\
  (exit_status pf e = Some 1 <-> ret pf e <> 0).
Proof.
  rewrite events_eq, exit_status_eq. split; [reflexivity |]. split.
  - intros [H _]. discriminate H.
  - destruct (Z.eqb_spec (ret pf e) 0) as [E | N].
    + split; [| contradiction]. destruct (blob_returns e); discriminate.
    + split; [intros _; exact N | reflexivity].
Qed.

(** C5: a run is the diagnostic lines, then the one [mprotect] request on
    the region the resolver computed, then either the call into the blob,
    when the request succeeded, or the failure report and status 1 with no
    call. *)
Theorem C5_strict_order (pf : platform) (e : env) :
  exists pre post,
    events pf e = pre ++ protect_request pf e :: post /\
    filter is_call pre = [] /\
    filter (is_libc "mprotect") pre = [] /\
    filter (is_libc "mprotect") post = [] /\
    filter is_call post =
      (if (ret pf e =? 0)%Z then [Call (instr e) []] else []) /\
    exit_status pf e =
      (if (ret pf e =? 0)%Z then (if blob_returns e then Some 0 else None)
       else Some 1).
Proof.
  exists (prologue pf e).
  exists (if (ret pf e =? 0)%Z then [jump_notice; Call (instr e) []]
          else [failure_report (snd (protect_answer pf e))]).
  split; [apply events_eq |].
  rewrite exit_status_eq.
  destruct (ret pf e =? 0)%Z; repeat split.
Qed.

(** C6: after a successful permission change the one indirect call goes to
    the address in [instr], with no argument; that address is the base of
    the region only when it is page aligned. *)
Theorem C6_invoker_target (pf : platform) (e : env) :
  12 <= size_t_bits pf -> is_address pf (instr e) -> ret pf e = 0 ->
  filter is_call (events pf e) = [Call (instr e) []] /\
  (base (resolver pf (instr e)) = instr e <-> instr e mod 4096 = 0).
Proof.
  intros Hw HA Hret. rewrite events_eq, Hret. split; [reflexivity |].
  rewrite resolver_base by assumption.
  pose proof (Z.div_mod (instr e) 4096 ltac:(lia)). lia.
Qed.

Lemma C6_invoker_target_witness :
  let e := granting_os 0x402010 false in
  filter is_call (events linux_x86_64 e) = [Call 0x402010 []] /\
  (base (resolver linux_x86_64 (instr e)) = instr e <-> instr e mod 4096 = 0).
Proof.
  apply (C6_invoker_target linux_x86_64 (granting_os 0x402010 false)).
  - simpl. lia.
  - unfold is_address. simpl. lia.
  - reflexivity.
Defined.

(** C8: a run calls no function that creates, destroys or copies storage;
    apart from [printf] and the call into the blob, its only call is the
    [mprotect] request on the computed region. *)
Theorem C8_no_storage_created_or_destroyed (pf : platform) (e : env) :
  forallb (fun ev => negb (manages_storage ev)) (events pf e) = true /\
  filter (fun ev => negb (is_libc "printf" ev) && negb (is_call ev))
    (events pf e) = [protect_request pf e].
Proof.
  rewrite events_eq. destruct (ret pf e =? 0)%Z; split; reflexivity.
Qed.

(** ** The requested protection *)

Lemma land_pow2_other (i j : Z) :
  0 <= i -> 0 <= j -> i <> j -> Z.land (2 ^ i) (2 ^ j) = 0.
Proof.
  intros Hi Hj Hij. apply Z.bits_inj'. intros n Hn.
  rewrite Z.land_spec, !Z.pow2_bits_eqb, Z.bits_0 by assumption.
  destruct (Z.eqb_spec i n), (Z.eqb_spec j n); try reflexivity. lia.
Qed.

Lemma has_flag_lor_l (a b : Z) : has_flag (Z.lor a b) a = true.
Proof.
  unfold has_flag. apply Z.eqb_eq. apply Z.bits_inj'. intros n _.
  rewrite Z.land_spec, Z.lor_spec.
  destruct (Z.testbit a n), (Z.testbit b n); reflexivity.
Qed.

Lemma has_flag_lor_r (a b : Z) : has_flag (Z.lor a b) b = true.
Proof. rewrite Z.lor_comm. apply has_flag_lor_l. Qed.

Lemma has_flag_write (pf : platform) :
  platform_ok pf ->
  has_flag (Z.lor (PROT_READ pf) (PROT_EXEC pf)) (PROT_WRITE pf) = false.
Proof.
  intros [_ (i & Hi & Ri) (j & Hj & Wj) (k & Hk & Xk) Hwr Hwx].
  unfold has_flag. apply Z.eqb_neq.
  rewrite Z.land_lor_distr_l, Ri, Wj, Xk in *.
  rewrite !land_pow2_other by congruence.
  simpl. pose proof (Z.pow_pos_nonneg 2 j ltac:(lia) Hj). lia.
Qed.

(** C9: the one [mprotect] request of a run asks for
    [PROT_READ | PROT_EXEC]: the write flag is not in it, and the state it
    names is [ExecutableReadable]. *)
Theorem C9_read_exec_only (pf : platform) (e : env) :
  platform_ok pf ->
  prot_args (events pf e) = [Z.lor (PROT_READ pf) (PROT_EXEC pf)] /\
  Forall (fun p => has_flag p (PROT_WRITE pf) = false /\
                   protection_state pf p = Some ExecutableReadable)
         (prot_args (events pf e)).
Proof.
  intros Hok.
  assert (E : prot_args (events pf e) = [Z.lor (PROT_READ pf) (PROT_EXEC pf)]).
  { rewrite events_eq. destruct (ret pf e =? 0)%Z; reflexivity. }
  rewrite E. split; [reflexivity |].
  constructor; [| constructor].
  unfold protection_state.
  rewrite has_flag_lor_l, has_flag_lor_r, has_flag_write by assumption.
  split; reflexivity.
Qed.

Lemma linux_x86_64_ok : platform_ok linux_x86_64.
Proof.
  constructor; simpl.
  - lia.
  - exists 0. split; [lia | reflexivity].
  - exists 1. split; [lia | reflexivity].
  - exists 2. split; [lia | reflexivity].
  - discriminate.
  - discriminate.
Defined.

Lemma C9_read_exec_only_witness :
  let e := granting_os 0x402010 false in
  prot_args (events linux_x86_64 e) = [5] /\
  Forall (fun p => has_flag p 2 = false /\
                   protection_state linux_x86_64 p = Some ExecutableReadable)
         (prot_args (events linux_x86_64 e)).
Proof.
  apply (C9_read_exec_only linux_x86_64 (granting_os 0x402010 false)).
  exact linux_x86_64_ok.
Defined.

(** ** Exit status and the steps after the permission change *)

(** C10, as stated, fails in its second half: between the successful
    [mprotect] and the call into the blob the program prints a line. *)
Lemma C10_counterexample :
  let e := granting_os 0x402010 false in
  ret linux_x86_64 e = 0 /\
  before_call (after_mprotect (events linux_x86_64 e)) = [jump_notice] /\
  before_call (after_mprotect (events linux_x86_64 e)) <> [].
Proof.
  cbv zeta. split; [reflexivity |]. split; [reflexivity |].
  vm_compute. discriminate.
Qed.

(** C10, amended: [main] returns 1 exactly when [mprotect] returns a
    non-zero value; when [mprotect] returns 0 the program calls into the
    blob, and the one thing it does between the permission change and that
    call is print the line "doing the jump thing". *)
Theorem C10_exit_status_and_jump (pf : platform) (e : env) :
  (exit_status pf e = Some 1 <-> ret pf e <> 0) /\
  after_mprotect (events pf e) =
    (if (ret pf e =? 0)%Z then [jump_notice; Call (instr e) []]
     else [failure_report (snd (protect_answer pf e))]) /\
  before_call (after_mprotect (events pf e)) =
    (if (ret pf e =? 0)%Z then [jump_notice]
     else [failure_report (snd (protect_answer pf e))]).
Proof.
  rewrite events_eq, exit_status_eq.
  destruct (Z.eqb_spec (ret pf e) 0) as [E | N].
  - split; [| split; reflexivity].
    split; [| contradiction]. destruct (blob_returns e); discriminate.
  - split; [| split; reflexivity].
    split; [intros _; exact N | reflexivity].
Qed.

(** ** More on the mask of lines 14-15 *)

Lemma pow2_page_le (w : Z) : 12 <= w -> 4096 <= 2 ^ w.
Proof.
  intros Hw. change 4096 with (2 ^ 12). apply Z.pow_le_mono_r; lia.
Qed.

Lemma pow2_page_split (w : Z) : 12 <= w -> 2 ^ w = 4096 * 2 ^ (w - 12).
Proof.
  intros Hw. change 4096 with (2 ^ 12).
  rewrite <- Z.pow_add_r by lia. f_equal. lia.
Qed.

Lemma resolver_base_ldiff (pf : platform) (a : Z) :
  12 <= size_t_bits pf -> is_address pf a ->
  base (resolver pf a) = Z.ldiff a (Z.ones 12).
Proof.
  intros Hw HA. rewrite resolver_base by assumption.
  rewrite Z.ldiff_ones_r by lia.
  rewrite Z.shiftr_div_pow2, Z.shiftl_mul_pow2 by lia.
  change (2 ^ 12) with 4096. lia.
Qed.

Lemma resolver_base_address (pf : platform) (a : Z) :
  12 <= size_t_bits pf -> is_address pf a ->
  is_address pf (base (resolver pf a)).
Proof.
  intros Hw [Ha0 Ha1]. rewrite resolver_base by (assumption || split; assumption).
  pose proof (Z.mod_pos_bound a 4096 ltac:(lia)).
  pose proof (Z.div_mod a 4096 ltac:(lia)).
  unfold is_address. lia.
Qed.

(** X1: the [int] mask [~0xfff] reaches the [&] sign-extended to the width of
    [size_t]: it is [2 ^ size_t_bits - 4096], every bit from 12 up to the top
    one set, whatever the width. *)
Theorem page_mask_sign_extended (pf : platform) :
  12 <= size_t_bits pf ->
  page_mask pf = 2 ^ size_t_bits pf - 4096.
Proof.
  intros Hw. unfold page_mask, to_size_t.
  pose proof (pow2_page_le _ Hw) as Hp.
  change (Z.lnot 4095) with (-4096).
  replace (-4096) with (2 ^ size_t_bits pf - 4096 + (-1) * 2 ^ size_t_bits pf)
    by lia.
  rewrite Z.mod_add by lia. apply Z.mod_small. lia.
Qed.

Lemma page_mask_sign_extended_witness :
  page_mask linux_x86_64 = 2 ^ 64 - 4096.
Proof.
  apply (page_mask_sign_extended linux_x86_64). simpl. lia.
Defined.

(** X2: the base keeps every bit of the address from bit 12 up and clears
    the twelve bits below. *)
Theorem resolver_base_bits (pf : platform) (a n : Z) :
  12 <= size_t_bits pf -> is_address pf a -> 0 <= n ->
  Z.testbit (base (resolver pf a)) n = ((12 <=? n)%Z && Z.testbit a n)%bool.
Proof.
  intros Hw HA Hn. rewrite resolver_base_ldiff by assumption.
  rewrite Z.ldiff_spec, Z.testbit_ones_nonneg by lia.
  destruct (Z.ltb_spec n 12), (Z.leb_spec 12 n); try lia;
    destruct (Z.testbit a n); reflexivity.
Qed.

Lemma resolver_base_bits_witness :
  Z.testbit (base (resolver linux_x86_64 0x7f0000402abc)) 46 =
  ((12 <=? 46)%Z && Z.testbit 0x7f0000402abc 46)%bool.
Proof.
  apply (resolver_base_bits linux_x86_64 0x7f0000402abc 46).
  - simpl. lia.
  - unfold is_address. simpl. lia.
  - lia.
Defined.

(** X3: the address is the base plus its low twelve bits: the offset of the
    blob in its page is [instr & 0xfff], less than a page. *)
Theorem resolver_offset (pf : platform) (a : Z) :
  12 <= size_t_bits pf -> is_address pf a ->
  a = base (resolver pf a) + Z.land a 0xfff /\
  0 <= Z.land a 0xfff < 4096.
Proof.
  intros Hw HA. rewrite resolver_base by assumption.
  change 4095 with (Z.ones 12). rewrite Z.land_ones by lia.
  change (2 ^ 12) with 4096.
  pose proof (Z.mod_pos_bound a 4096 ltac:(lia)).
  pose proof (Z.div_mod a 4096 ltac:(lia)). lia.
Qed.

Lemma resolver_offset_witness :
  0x402abc = base (resolver linux_x86_64 0x402abc) + Z.land 0x402abc 0xfff /\
  0 <= Z.land 0x402abc 0xfff < 4096.
Proof.
  apply (resolver_offset linux_x86_64 0x402abc).
  - simpl. lia.
  - unfold is_address. simpl. lia.
Defined.

(** X4: resolving the base of a region gives the same region again. *)
Theorem resolver_idempotent (pf : platform) (a : Z) :
  12 <= size_t_bits pf -> is_address pf a ->
  resolver pf (base (resolver pf a)) = resolver pf a.
Proof.
  intros Hw HA.
  pose proof (resolver_base_address pf a Hw HA) as HB.
  assert (E : base (resolver pf (base (resolver pf a))) = base (resolver pf a)).
  { rewrite (resolver_base pf (base _)) by assumption.
    rewrite (resolver_base pf a) by assumption.
    rewrite (Z.mul_comm 4096 (a / 4096)), Z.div_mul by lia. lia. }
  unfold resolver in *. cbn [base] in *. now rewrite E.
Qed.

Lemma resolver_idempotent_witness :
  resolver linux_x86_64 (base (resolver linux_x86_64 0x402abc)) =
  resolver linux_x86_64 0x402abc.
Proof.
  apply (resolver_idempotent linux_x86_64 0x402abc).
  - simpl. lia.
  - unfold is_address. simpl. lia.
Defined.

(** X5: two addresses get the same region exactly when they lie on the same
    4096-byte page. *)
Theorem resolver_same_page (pf : platform) (a b : Z) :
  12 <= size_t_bits pf -> is_address pf a -> is_address pf b ->
  (resolver pf a = resolver pf b <-> page_of 4096 a = page_of 4096 b).
Proof.
  intros Hw HA HB. unfold page_of. split.
  - intros E. apply (f_equal base) in E.
    rewrite !resolver_base in E by assumption. lia.
  - intros E.
    assert (E' : base (resolver pf a) = base (resolver pf b))
      by (rewrite !resolver_base by assumption; now rewrite E).
    unfold resolver in *. cbn [base] in *. now rewrite E'.
Qed.

Lemma resolver_same_page_witness :
  resolver linux_x86_64 0x402010 = resolver linux_x86_64 0x402ffa <->
  page_of 4096 0x402010 = page_of 4096 0x402ffa.
Proof.
  apply (resolver_same_page linux_x86_64 0x402010 0x402ffa).
  - simpl. lia.
  - unfold is_address. simpl. lia.
  - unfold is_address. simpl. lia.
Defined.

(** X6: the base grows with the address. *)
Theorem resolver_monotone (pf : platform) (a b : Z) :
  12 <= size_t_bits pf -> is_address pf a -> is_address pf b -> a <= b ->
  base (resolver pf a) <= base (resolver pf b).
Proof.
  intros Hw HA HB Hab. rewrite !resolver_base by assumption.
  pose proof (Z.div_le_mono a b 4096 ltac:(lia) Hab). lia.
Qed.

Lemma resolver_monotone_witness :
  base (resolver linux_x86_64 0x402ffa) <= base (resolver linux_x86_64 0x403001).
Proof.
  apply (resolver_monotone linux_x86_64 0x402ffa 0x403001).
  - simpl. lia.
  - unfold is_address. simpl. lia.
  - unfold is_address. simpl. lia.
  - lia.
Defined.

(** X7: the region lies in the address space: its base is an address and its
    end does not pass [2 ^ size_t_bits], so the range given to [mprotect]
    never wraps around, even for the last page. *)
Theorem resolver_region_in_range (pf : platform) (a : Z) :
  12 <= size_t_bits pf -> is_address pf a ->
  let r := resolver pf a in
  is_address pf (base r) /\ base r + len r <= 2 ^ size_t_bits pf.
Proof.
  intros Hw HA r. subst r. split; [now apply resolver_base_address |].
  rewrite resolver_base, resolver_len by assumption.
  destruct HA as [Ha0 Ha1]. rewrite (pow2_page_split _ Hw) in *.
  pose proof (Z.div_lt_upper_bound a 4096 _ ltac:(lia) Ha1). lia.
Qed.

Lemma resolver_region_in_range_witness :
  let r := resolver linux_x86_64 0xffffffffffffffff in
  is_address linux_x86_64 (base r) /\ base r + len r <= 2 ^ 64.
Proof.
  apply (resolver_region_in_range linux_x86_64 0xffffffffffffffff).
  - simpl. lia.
  - unfold is_address. simpl. lia.
Defined.

(** X8: the region holds a blob exactly when the blob's offset in its page
    plus its length is at most a page; for the ten bytes of the program
    itself, exactly when [instr] is at most 4086 bytes into its page. *)
Theorem resolver_covers_iff_fits (pf : platform) (b : CodeBlob) :
  12 <= size_t_bits pf -> is_address pf (start b) ->
  (covers (resolver pf (start b)) b <-> start b mod 4096 + size b <= 4096) /\
  (covers (resolver pf (start b)) (own_blob (start b)) <->
   start b mod 4096 <= 4086).
Proof.
  intros Hw HA. unfold covers, own_blob. cbn [start size].
  rewrite resolver_base, resolver_len by assumption.
  change (Z.of_nat (List.length instr_bytes)) with 10.
  pose proof (Z.mod_pos_bound (start b) 4096 ltac:(lia)).
  pose proof (Z.div_mod (start b) 4096 ltac:(lia)).
  repeat split; lia.
Qed.

Lemma resolver_covers_iff_fits_witness :
  let b := {| start := 0x402ff7; size := 9 |} in
  (covers (resolver linux_x86_64 (start b)) b <->
   start b mod 4096 + size b <= 4096) /\
  (covers (resolver linux_x86_64 (start b)) (own_blob (start b)) <->
   start b mod 4096 <= 4086).
Proof.
  apply (resolver_covers_iff_fits linux_x86_64 {| start := 0x402ff7; size := 9 |}).
  - simpl. lia.
  - unfold is_address. simpl. lia.
Defined.

(** ** More on the run of [main] *)



(** X10: a run depends on its environment only through the three addresses
    printed, the kernel's answer to the one request the program makes, and
    whether the blob returns: the value [errno] had at the start and the
    kernel's answers to other requests never show. *)
Theorem run_main_frame (pf : platform) (e e' : env) :
  instr e = instr e' -> addr_main e = addr_main e' ->
  addr_region e = addr_region e' -> blob_returns e = blob_returns e' ->
  protect_answer pf e = protect_answer pf e' ->
  run_main pf e = run_main pf e'.
Proof.
  intros Hi Hm Hr Hb Ha. rewrite !run_main_eq.
  unfold ret, protect_request, prologue. rewrite Hi, Hm, Hr, Hb, Ha.
  reflexivity.
Qed.

Lemma run_main_frame_witness :
  run_main linux_x86_64 (picky_os 0x402abc 0x402000 0x1000 5) =
  run_main linux_x86_64 (granting_os 0x402abc false).
Proof.
  apply (run_main_frame linux_x86_64
           (picky_os 0x402abc 0x402000 0x1000 5) (granting_os 0x402abc false));
    reflexivity.
Defined.

(** X11: the line labelled "page @" shows the address of the local variable
    [region], not the page computed: it is the third call of every run and
    is the same for every blob address. *)
Theorem page_line_prints_variable_address (pf : platform) (e e' : env) :
  addr_region e = addr_region e' ->
  nth_error (events pf e) 2 =
    Some (Libc "printf" [VStr ("        page @ %p" ++ LF); VPtr (addr_region e)]) /\
  nth_error (events pf e) 2 = nth_error (events pf e') 2.
Proof.
  intros Hr. rewrite !events_eq. cbn [prologue app nth_error].
  rewrite Hr. split; reflexivity.
Qed.

Lemma page_line_prints_variable_address_witness :
  nth_error (events linux_x86_64 (granting_os 0x402abc false)) 2 =
    Some (Libc "printf"
            [VStr ("        page @ %p" ++ LF); VPtr 0x7ffc00001000]) /\
  nth_error (events linux_x86_64 (granting_os 0x402abc false)) 2 =
  nth_error (events linux_x86_64 (refusing_os 0x7f0000001234)) 2.
Proof.
  apply (page_line_prints_variable_address linux_x86_64
           (granting_os 0x402abc false) (refusing_os 0x7f0000001234)).
  reflexivity.
Defined.
